(** * Lead capture core of the SDR agent (backend/src/agent.py)

    A shallow embedding of the lead profile, the profile update tool, the
    finalize-and-persist tool and the knowledge-base loader, with the
    properties of the lead-collection and persistence core.

    The two tools read and write the session's one profile object; here the
    profile is passed in and handed back. The files are a state threaded
    through the calls, the clock reading of a call is an argument, and
    console output is left out. *)

From Stdlib Require Import String Ascii.
From stdpp Require Import gmap strings list sorting pretty.

Local Open Scope string_scope.

(** ** Python values used by the program *)

(** [str | None]: an optional string. *)
Abbreviation py_optstr := (option string) (only parsing).

(** [bool(s)] for a [str]: a string is truthy iff it has a character. *)
Definition str_truthy (s : string) : bool :=
  match s with
  | EmptyString => false
  | String _ _ => true
  end.

(** [bool(v)] for [v : str | None], the test of [if v:]. *)
Definition truthy (v : py_optstr) : bool :=
  match v with
  | None => false
  | Some s => str_truthy s
  end.

(** [all(l)] on a list of optional strings. *)
Definition py_all (l : list py_optstr) : bool := forallb truthy l.

(** ** 2. Lead data structure *)

Record LeadProfile := mkLeadProfile {
  name : py_optstr;
  company : py_optstr;
  email : py_optstr;
  role : py_optstr;
  use_case : py_optstr;
  team_size : py_optstr;
  timeline : py_optstr
}.

(** [LeadProfile()]: every field defaults to [None]. *)
Definition LeadProfile_new : LeadProfile :=
  mkLeadProfile None None None None None None None.

Definition is_qualified (self : LeadProfile) : bool :=
  py_all [name self; email self; use_case self].

(** Attribute assignments [profile.<field> = v]. *)
Definition set_name (v : py_optstr) (p : LeadProfile) : LeadProfile :=
  mkLeadProfile v (company p) (email p) (role p) (use_case p) (team_size p) (timeline p).
Definition set_company (v : py_optstr) (p : LeadProfile) : LeadProfile :=
  mkLeadProfile (name p) v (email p) (role p) (use_case p) (team_size p) (timeline p).
Definition set_email (v : py_optstr) (p : LeadProfile) : LeadProfile :=
  mkLeadProfile (name p) (company p) v (role p) (use_case p) (team_size p) (timeline p).
Definition set_role (v : py_optstr) (p : LeadProfile) : LeadProfile :=
  mkLeadProfile (name p) (company p) (email p) v (use_case p) (team_size p) (timeline p).
Definition set_use_case (v : py_optstr) (p : LeadProfile) : LeadProfile :=
  mkLeadProfile (name p) (company p) (email p) (role p) v (team_size p) (timeline p).
Definition set_team_size (v : py_optstr) (p : LeadProfile) : LeadProfile :=
  mkLeadProfile (name p) (company p) (email p) (role p) (use_case p) v (timeline p).
Definition set_timeline (v : py_optstr) (p : LeadProfile) : LeadProfile :=
  mkLeadProfile (name p) (company p) (email p) (role p) (use_case p) (team_size p) v.

(** ** 3. SDR tools: the profile update *)

(** [update_lead_profile]: the session's profile object is passed in and the
    mutated object is returned next to the tool's result string.  The seven
    keyword parameters default to [None]. *)
Definition update_lead_profile (profile : LeadProfile)
    (name company email role use_case team_size timeline : py_optstr)
    : LeadProfile * string :=
  let profile := if truthy name then set_name name profile else profile in
  let profile := if truthy company then set_company company profile else profile in
  let profile := if truthy email then set_email email profile else profile in
  let profile := if truthy role then set_role role profile else profile in
  let profile := if truthy use_case then set_use_case use_case profile else profile in
  let profile := if truthy team_size then set_team_size team_size profile else profile in
  let profile := if truthy timeline then set_timeline timeline profile else profile in
  (profile, "Lead profile updated successfully.").

(** One tool call: the values bound to the seven parameters. *)
Record update_call := mkCall {
  arg_name : py_optstr;
  arg_company : py_optstr;
  arg_email : py_optstr;
  arg_role : py_optstr;
  arg_use_case : py_optstr;
  arg_team_size : py_optstr;
  arg_timeline : py_optstr
}.

Definition invoke_update (profile : LeadProfile) (c : update_call)
    : LeadProfile * string :=
  update_lead_profile profile (arg_name c) (arg_company c) (arg_email c)
    (arg_role c) (arg_use_case c) (arg_team_size c) (arg_timeline c).

(** A session's sequence of update calls on the one shared profile. *)
Definition run_updates (profile : LeadProfile) (calls : list update_call)
    : LeadProfile :=
  fold_left (fun p c => fst (invoke_update p c)) calls profile.

(** The seven recognized fields, to speak about "each field". *)
Inductive field :=
  | F_name | F_company | F_email | F_role | F_use_case | F_team_size | F_timeline.

Definition get_field (f : field) (p : LeadProfile) : py_optstr :=
  match f with
  | F_name => name p
  | F_company => company p
  | F_email => email p
  | F_role => role p
  | F_use_case => use_case p
  | F_team_size => team_size p
  | F_timeline => timeline p
  end.

Definition get_arg (f : field) (c : update_call) : py_optstr :=
  match f with
  | F_name => arg_name c
  | F_company => arg_company c
  | F_email => arg_email c
  | F_role => arg_role c
  | F_use_case => arg_use_case c
  | F_team_size => arg_team_size c
  | F_timeline => arg_timeline c
  end.

(** The last non-empty value in a sequence of supplied values, if any. *)
Fixpoint last_nonempty (vs : list py_optstr) : py_optstr :=
  match vs with
  | [] => None
  | v :: rest =>
      match last_nonempty rest with
      | Some s => Some s
      | None => if truthy v then v else None
      end
  end.

(** A field holds either nothing or a string with at least one character. *)
Definition unset_or_nonempty (v : py_optstr) : Prop :=
  v = None ∨ ∃ s, v = Some s ∧ s ≠ EmptyString.

(** ** Python exceptions and outcomes *)

Inductive exn :=
  | FileNotFoundError
  | PermissionError
  | JSONDecodeError
  | AttributeError
  | TypeError.

(** A call either returns a value or raises. *)
Inductive outcome (A : Type) :=
  | Returns (a : A)
  | Raises (e : exn).
Arguments Returns {A} a.
Arguments Raises {A} e.

(** ** JSON documents, as [json.load] builds them and [json.dump] writes them

    Numbers are the integers; floats do not occur in what this program
    writes. An object keeps its keys in insertion order, like a dict. *)
#[local] Set Warnings "-register-all".
Inductive json :=
  | JNull
  | JBool (b : bool)
  | JInt (n : Z)
  | JStr (s : string)
  | JArr (items : list json)
  | JObj (members : list (string * json)).

(** A [str | None] value inside a document. *)
Definition json_of_optstr (v : py_optstr) : json :=
  match v with
  | Some s => JStr s
  | None => JNull
  end.

(** [d.get(key)] on an object. *)
Fixpoint member (key : string) (members : list (string * json)) : option json :=
  match members with
  | [] => None
  | (k, v) :: rest => if String.eqb k key then Some v else member key rest
  end.

(** [sep.join(parts)]. *)
Fixpoint join (sep : string) (parts : list string) : string :=
  match parts with
  | [] => EmptyString
  | [p] => p
  | p :: rest => p ++ sep ++ join sep rest
  end.

Section Serializer.
(** json's escaper for string literals (quotes included), with
    [ensure_ascii=True]; it belongs to the json library. *)
Variable encode_basestring_ascii : string → string.

(** [json.dumps(v)] with the default separators [", "] and [": "]. *)
Fixpoint json_dumps (v : json) : string :=
  match v with
  | JNull => "null"
  | JBool true => "true"
  | JBool false => "false"
  | JInt n => pretty n
  | JStr s => encode_basestring_ascii s
  | JArr items => "[" ++ join ", " (map json_dumps items) ++ "]"
  | JObj members =>
      "{" ++ join ", "
               (map (fun kv : string * json =>
                       let (k, x) := kv in
                       encode_basestring_ascii k ++ ": " ++ json_dumps x)
                    members) ++ "}"
  end.
End Serializer.

(** ** Files

    A file holds text; what matters to the program is what [json.load] makes
    of it: a document, or a decode error. *)
Inductive content :=
  | Malformed (raw : string)
  | Document (v : json).

(** The files by path, and the paths the process may not read or write. *)
Record filesystem := mkFs {
  files : gmap string content;
  no_read : gset string;
  no_write : gset string
}.

(** Code that touches the files and may raise: state changes made before
    an exception stay. *)
Definition IO (A : Type) : Type := filesystem → outcome A * filesystem.

#[global] Instance IO_ret : MRet IO := fun A a fs => (Returns a, fs).

#[global] Instance IO_bind : MBind IO := fun A B k m fs =>
  match m fs with
  | (Returns a, fs') => k a fs'
  | (Raises e, fs') => (Raises e, fs')
  end.

Definition raise {A} (e : exn) : IO A := fun fs => (Raises e, fs).

(** [try: body  except: handler]. Every exception modelled here derives from
    [Exception], so [except Exception] and a bare [except] catch the same. *)
Definition try_except {A} (body : IO A) (handler : exn → IO A) : IO A :=
  fun fs =>
    match body fs with
    | (Returns a, fs') => (Returns a, fs')
    | (Raises e, fs') => handler e fs'
    end.

(** [os.path.exists(path)]. *)
Definition os_path_exists (path : string) : IO bool :=
  fun fs => (Returns (bool_decide (is_Some (files fs !! path))), fs).

(** [open(path, "r")]: gives the file's text, here what it decodes to. *)
Definition open_r (path : string) : IO content :=
  fun fs =>
    match files fs !! path with
    | None => (Raises FileNotFoundError, fs)
    | Some c =>
        if bool_decide (path ∈ no_read fs) then (Raises PermissionError, fs)
        else (Returns c, fs)
    end.

(** [json.load(f)]. *)
Definition json_load (c : content) : IO json :=
  match c with
  | Malformed _ => raise JSONDecodeError
  | Document v => mret v
  end.

(** [open(path, "w")]: creates the file or truncates it to no text at all,
    which is not a document. *)
Definition open_w (path : string) : IO unit :=
  fun fs =>
    if bool_decide (path ∈ no_write fs) then (Raises PermissionError, fs)
    else (Returns tt,
          mkFs (<[path := Malformed EmptyString]> (files fs)) (no_read fs) (no_write fs)).

(** [json.dump(v, f, indent=4)] on the file just opened for writing. *)
Definition json_dump (v : json) (path : string) : IO unit :=
  fun fs =>
    (Returns tt, mkFs (<[path := Document v]> (files fs)) (no_read fs) (no_write fs)).

(** [existing_data.append(entry)]: only a list has [append]. *)
Definition py_append (existing : json) (entry : json) : IO json :=
  match existing with
  | JArr items => mret (JArr (items ++ [entry]))
  | _ => raise AttributeError
  end.

(** [os.path.join(a, b)] on POSIX paths. *)
Definition os_path_join (a b : string) : string :=
  match b with
  | String "/" _ => b
  | _ =>
      if match a with EmptyString => true | _ => false end then b
      else if String.eqb (substring (String.length a - 1) 1 a) "/" then a ++ b
      else a ++ "/" ++ b
  end.

(** ** Wall-clock time *)

(** A naive [datetime], as [datetime.now()] returns it. *)
Record datetime := mkDatetime {
  year : Z;
  month : Z;
  day : Z;
  hour : Z;
  minute : Z;
  second : Z;
  microsecond : Z
}.

(** The ranges the datetime type enforces (the day's bound is by month; 31
    is what the fixed-width rendering needs). *)
Definition valid_datetime (d : datetime) : Prop :=
  (1 ≤ year d ≤ 9999 ∧ 1 ≤ month d ≤ 12 ∧ 1 ≤ day d ≤ 31 ∧
   0 ≤ hour d < 24 ∧ 0 ≤ minute d < 60 ∧ 0 ≤ second d < 60 ∧
   0 ≤ microsecond d < 1000000)%Z.

Definition digit_char (d : Z) : ascii := ascii_of_N (Z.to_N (48 + d)).

(** ["%0<w>d" % n] for [0 <= n < 10^w]: the last [w] decimal digits. *)
Fixpoint zfill (w : nat) (n : Z) : string :=
  match w with
  | O => EmptyString
  | S w' => zfill w' (n / 10) ++ String (digit_char (n mod 10)) EmptyString
  end.

(** The fraction of a second in [isoformat]: printed only when it is not
    zero ([if us:]). *)
Definition iso_fraction (us : Z) : string :=
  if (us =? 0)%Z then EmptyString else "." ++ zfill 6 us.

(** [d.isoformat()], with the default separator and no time zone. *)
Definition isoformat (d : datetime) : string :=
  zfill 4 (year d) ++ "-" ++ zfill 2 (month d) ++ "-" ++ zfill 2 (day d) ++ "T" ++
  zfill 2 (hour d) ++ ":" ++ zfill 2 (minute d) ++ ":" ++ zfill 2 (second d) ++
  iso_fraction (microsecond d).

(** Python's order on naive datetimes: field by field, most significant
    first. *)
Definition datetime_key (d : datetime) : list Z :=
  [year d; month d; day d; hour d; minute d; second d; microsecond d].

Fixpoint lex_leb (a b : list Z) : bool :=
  match a, b with
  | [], _ => true
  | _ :: _, [] => false
  | x :: a', y :: b' => (x <? y)%Z || ((x =? y)%Z && lex_leb a' b')
  end.

Definition datetime_leb (d1 d2 : datetime) : bool :=
  lex_leb (datetime_key d1) (datetime_key d2).

(** ** 1. Knowledge base (FAQ) *)

Definition FAQ_FILE : string := "arvind_store_faq.json".
Definition LEADS_FILE : string := "arvind_leads_db.json".

Definition faq_item (question answer : string) : json :=
  JObj [("question", JStr question); ("answer", JStr answer)].

Definition DEFAULT_FAQ : json :=
  JArr [
    faq_item "What do you sell?"
      "I offer professional training in AI, Chatbot Development, Java Web Development and Voice AI Agents. I also provide project guidance and mentorship for students.";
    faq_item "How much does the AI course cost?"
      "The AI & Chatbot Development course starts from ₹4,999 depending on the module depth and duration.";
    faq_item "Do you provide certificates?"
      "Yes, all paid courses include a verified completion certificate and project mentoring support.";
    faq_item "Do you offer project help?"
      "Yes, I help students build real-world AI and chatbot projects for academic and professional use."
  ].

(** [str(v)] as an f-string renders a [str | None]. *)
Definition py_str (v : py_optstr) : string :=
  match v with
  | Some s => s
  | None => "None"
  end.

(** [dataclasses.asdict(profile)]: the fields in declaration order. *)
Definition asdict (p : LeadProfile) : list (string * json) :=
  [("name", json_of_optstr (name p));
   ("company", json_of_optstr (company p));
   ("email", json_of_optstr (email p));
   ("role", json_of_optstr (role p));
   ("use_case", json_of_optstr (use_case p));
   ("team_size", json_of_optstr (team_size p));
   ("timeline", json_of_optstr (timeline p))].

(** [d[key] = v]: replaces the value of a present key, else adds the key
    at the end. *)
Fixpoint dict_setitem (key : string) (v : json) (d : list (string * json))
    : list (string * json) :=
  match d with
  | [] => [(key, v)]
  | (k, x) :: rest =>
      if String.eqb k key then (k, v) :: rest
      else (k, x) :: dict_setitem key v rest
  end.

(** The f-string [submit_lead_and_end] returns. *)
Definition closing_message (profile : LeadProfile) : string :=
  "Thanks " ++ py_str (name profile) ++
  "! I have recorded your interest in " ++ py_str (use_case profile) ++
  ". We will contact you soon at " ++ py_str (email profile) ++
  ". Goodbye!".

Section Program.
(** [os.path.dirname(__file__)], where both files live. *)
Variable module_dir : string.
Variable encode_basestring_ascii : string → string.

Definition load_knowledge_base : IO string :=
  try_except
    (let path := os_path_join module_dir FAQ_FILE in
     present ← os_path_exists path;
     (if negb present
      then open_w path;; json_dump DEFAULT_FAQ path
      else mret tt);;
     c ← open_r path;
     v ← json_load c;
     mret (json_dumps encode_basestring_ascii v))
    (fun e => mret EmptyString).

(** The record a finalize call builds from the profile and the clock. *)
Definition lead_entry (profile : LeadProfile) (now : datetime) : json :=
  JObj (dict_setitem "timestamp" (JStr (isoformat now)) (asdict profile)).

(** [submit_lead_and_end]; [now] is what [datetime.now()] returns during
    the call. *)
Definition submit_lead_and_end (profile : LeadProfile) (now : datetime)
    : IO string :=
  let db_path := os_path_join module_dir LEADS_FILE in
  let entry := lead_entry profile now in
  present ← os_path_exists db_path;
  existing_data ←
    (if (present : bool)
     then try_except (c ← open_r db_path; json_load c)
                     (fun _ => mret (JArr []))
     else mret (JArr []));
  existing_data ← py_append existing_data entry;
  open_w db_path;;
  json_dump existing_data db_path;;
  mret (closing_message profile).

(** Finalize calls made one after the other, each with its own profile
    and clock reading; the first exception ends the run. *)
Fixpoint submit_each (calls : list (LeadProfile * datetime)) : IO (list string) :=
  match calls with
  | [] => mret []
  | (profile, now) :: rest =>
      msg ← submit_lead_and_end profile now;
      msgs ← submit_each rest;
      mret (msg :: msgs)
  end.

(** *** The lead store as finalize sees it *)

Definition db_path : string := os_path_join module_dir LEADS_FILE.
Definition faq_path : string := os_path_join module_dir FAQ_FILE.

(** The file is absent, or cannot be read, or does not decode. *)
Definition store_lost (fs : filesystem) : Prop :=
  match files fs !! db_path with
  | None => True
  | Some (Malformed _) => True
  | Some (Document _) => db_path ∈ no_read fs
  end.

(** The records of the store: those of the array in the file, none when
    the store is lost; no answer when the file decodes to something that
    is not an array. *)
Definition store_records (fs : filesystem) : option (list json) :=
  match files fs !! db_path with
  | None => Some []
  | Some c =>
      if bool_decide (db_path ∈ no_read fs) then Some []
      else match c with
           | Malformed _ => Some []
           | Document (JArr items) => Some items
           | Document _ => None
           end
  end.

(** The file system after the store file has been rewritten with [v]. *)
Definition store_written (v : json) (fs : filesystem) : filesystem :=
  mkFs (<[db_path := Document v]> (files fs)) (no_read fs) (no_write fs).
End Program.

(** The capture timestamp of a stored record. *)
Definition entry_timestamp (r : json) : option string :=
  match r with
  | JObj members =>
      match member "timestamp" members with
      | Some (JStr s) => Some s
      | _ => None
      end
  | _ => None
  end.

(** [needle in hay] on strings. *)
Fixpoint contains (needle hay : string) : bool :=
  String.prefix needle hay ||
  match hay with
  | EmptyString => false
  | String _ hay' => contains needle hay'
  end.

(** *** Calling the update tool with keyword arguments

    The signature of [update_lead_profile] has the seven keyword parameters
    and no [**kwargs]: binding a call's keywords to it fails on any other
    name before the body runs; a parameter not named takes its default. *)
Definition PARAMS : list string :=
  ["name"; "company"; "email"; "role"; "use_case"; "team_size"; "timeline"].



(** The keyword of each field. *)
Definition field_key (f : field) : string :=
  match f with
  | F_name => "name"
  | F_company => "company"
  | F_email => "email"
  | F_role => "role"
  | F_use_case => "use_case"
  | F_team_size => "team_size"
  | F_timeline => "timeline"
  end.



(** ** Orders on clock readings and on their renderings *)

(** Comparing by a first key, then by a second. *)
Definition lexc (c1 c2 : comparison) : comparison :=
  match c1 with
  | Eq => c2
  | _ => c1
  end.

Fixpoint lex_compare (a b : list Z) : comparison :=
  match a, b with
  | [], [] => Eq
  | [], _ :: _ => Lt
  | _ :: _, [] => Gt
  | x :: a', y :: b' => lexc (x ?= y)%Z (lex_compare a' b')
  end.

(** [d1 <= d2] on datetimes. *)
Definition datetime_le (d1 d2 : datetime) : Prop := datetime_leb d1 d2 = true.


(** The record and the clock reading of a finalize call. *)
Definition entry_of_call (c : LeadProfile * datetime) : json :=
  lead_entry (fst c) (snd c).

(** ** Sample data for worked runs *)

Definition example_dir : string := "/srv/agent/src".

Definition example_now : datetime := mkDatetime 2025 11 27 18 4 59 120034.

Definition example_record : json :=
  lead_entry
    (mkLeadProfile (Some "Ravi") (Some "Acme") (Some "ravi@acme.io") None
                   (Some "voice agent") None None)
    (mkDatetime 2025 11 27 9 30 0 0).

(** A file system whose only file is the lead store, with full access. *)
Definition fs_with_store (c : content) : filesystem :=
  mkFs {[ db_path example_dir := c ]} ∅ ∅.

(** A file system with no files. *)
Definition fs_empty : filesystem := mkFs ∅ ∅ ∅.

(** The scenario's profile: [update(name="Asha", email="asha@x.com")], then
    [update(use_case="chatbot")], on a fresh profile. *)
Definition asha_profile : LeadProfile :=
  let p0 := LeadProfile_new in
  let p1 := fst (update_lead_profile p0 (Some "Asha") None (Some "asha@x.com")
                   None None None None) in
  fst (update_lead_profile p1 None None None None (Some "chatbot") None None).

(** ** The loader as the specification words it

    Seed the file with the defaults when it is absent, then read it and
    serialize what it holds; any read or write error gives the empty blob. *)
Definition kb_loader_spec (module_dir : string)
    (encode_basestring_ascii : string → string) (fs : filesystem)
    : string * filesystem :=
  let path := faq_path module_dir in
  match files fs !! path with
  | None =>
      if bool_decide (path ∈ no_write fs) then (EmptyString, fs)
      else
        let seeded :=
          mkFs (<[path := Document DEFAULT_FAQ]> (files fs))
               (no_read fs) (no_write fs) in
        if bool_decide (path ∈ no_read fs) then (EmptyString, seeded)
        else (json_dumps encode_basestring_ascii DEFAULT_FAQ, seeded)
  | Some c =>
      if bool_decide (path ∈ no_read fs) then (EmptyString, fs)
      else
        match c with
        | Malformed _ => (EmptyString, fs)
        | Document v => (json_dumps encode_basestring_ascii v, fs)
        end
  end.

(** Two finalize calls, the first on a profile with nothing in it. *)
Definition example_calls : list (LeadProfile * datetime) :=
  [(LeadProfile_new, mkDatetime 2025 11 27 18 4 59 0);
   (asha_profile, mkDatetime 2025 11 27 18 4 59 120034)].

(** ** Further vocabulary for the update tool *)

(** One call standing for a sequence of calls: per parameter, the last
    non-empty value of the sequence. *)
Definition merge_calls (calls : list update_call) : update_call :=
  mkCall (last_nonempty (map arg_name calls))
         (last_nonempty (map arg_company calls))
         (last_nonempty (map arg_email calls))
         (last_nonempty (map arg_role calls))
         (last_nonempty (map arg_use_case calls))
         (last_nonempty (map arg_team_size calls))
         (last_nonempty (map arg_timeline calls)).

(** Some call of the sequence carries a non-empty value for the field. *)
Definition supplied (f : field) (calls : list update_call) : bool :=
  existsb (fun c => truthy (get_arg f c)) calls.

(** The fields [is_qualified] looks at. *)
Definition required_fields : list field := [F_name; F_email; F_use_case].

(** An argument with the empty string replaced by [None]. *)
Definition absent_if_empty (v : py_optstr) : py_optstr :=
  if truthy v then v else None.

Definition drop_empty_args (c : update_call) : update_call :=
  mkCall (absent_if_empty (arg_name c)) (absent_if_empty (arg_company c))
         (absent_if_empty (arg_email c)) (absent_if_empty (arg_role c))
         (absent_if_empty (arg_use_case c)) (absent_if_empty (arg_team_size c))
         (absent_if_empty (arg_timeline c)).


(** Sample calls: one gives the name, the other the email. *)
Definition example_call_name : update_call :=
  mkCall (Some "Asha") None None None None None None.
Definition example_call_email : update_call :=
  mkCall None None (Some "asha@x.com") (Some EmptyString) None None None.

(** ** Further vocabulary for the lead store *)


(** [r.get(key)] on a stored record. *)
Definition entry_member (key : string) (r : json) : option json :=
  match r with
  | JObj members => member key members
  | _ => None
  end.

(** The keys of a stored record, in order. *)
Definition entry_keys (r : json) : list string :=
  match r with
  | JObj members => map fst members
  | _ => []
  end.

(** ** 4. Agent definition *)

(** The text of the instructions before and after the knowledge base. *)
Definition INSTRUCTIONS_HEAD : string := "
            You are 'Arvind', a friendly Sales Development Representative for 'Arvind Store'.

            📘 KNOWLEDGE BASE:
            ".

Definition INSTRUCTIONS_TAIL : string := "

            🎯 GOAL:
            - Answer questions about AI, Chatbot & Web Development courses.
            - Collect lead details naturally.

            Ask for:
            - Name
            - Email
            - Role / Company
            - Use Case
            - Timeline

            ⚙️ Behavior:
            - Be polite, natural and helpful.
            - After answering, ask one lead question.
            - Use update_lead_profile tool when user provides info.
            - When user says bye/thanks/done, call submit_lead_and_end.

            🚫 Never invent answers not in FAQ.
            ".

(** The [instructions] f-string of [SDRAgent.__init__], for the value of
    [STORE_FAQ_TEXT]. *)
Definition SDRAgent_instructions (STORE_FAQ_TEXT : string) : string :=
  INSTRUCTIONS_HEAD ++ STORE_FAQ_TEXT ++ INSTRUCTIONS_TAIL.

(** The names of the functions in [tools=[...]]. *)
Definition SDRAgent_tools : list string :=
  ["update_lead_profile"; "submit_lead_and_end"].

(** A stand-in for json's escaper in worked runs: the text between double
    quotes, nothing escaped. *)
Definition quote_plain (s : string) : string :=
  String (ascii_of_nat 34) (s ++ String (ascii_of_nat 34) EmptyString).

(** The path of the knowledge-base file in the sample directory, and a file
    system that holds only that file. *)
Definition fs_with_faq (c : content) : filesystem :=
  mkFs {[ faq_path example_dir := c ]} ∅ ∅.

(** The knowledge-base file is there, can be read and decodes. *)
Definition faq_readable_document (module_dir : string) (fs : filesystem) : Prop :=
  ∃ v, files fs !! faq_path module_dir = Some (Document v) ∧
       (faq_path module_dir ∉ no_read fs).

(** * Properties *)

(** ** Properties of the profile and its update *)

Lemma truthy_spec (v : py_optstr) :
  truthy v = true ↔ ∃ s, v = Some s ∧ s ≠ EmptyString.
Proof.
  split.
  - destruct v as [[|a s]|]; simpl; intros H; try discriminate.
    exists (String a s). split; [reflexivity | discriminate].
  - intros (s & -> & Hs). destruct s; [contradiction | reflexivity].
Qed.

Lemma invoke_update_field (f : field) (p : LeadProfile) (c : update_call) :
  get_field f (fst (invoke_update p c)) =
  if truthy (get_arg f c) then get_arg f c else get_field f p.
Proof.
  destruct c as [a1 a2 a3 a4 a5 a6 a7], p as [p1 p2 p3 p4 p5 p6 p7].
  unfold invoke_update, update_lead_profile; simpl.
  destruct f; simpl;
    destruct (truthy a1), (truthy a2), (truthy a3), (truthy a4),
             (truthy a5), (truthy a6), (truthy a7); reflexivity.
Qed.

Lemma profile_ext (p q : LeadProfile) :
  (∀ f, get_field f p = get_field f q) → p = q.
Proof.
  intros H. destruct p, q.
  pose proof (H F_name). pose proof (H F_company). pose proof (H F_email).
  pose proof (H F_role). pose proof (H F_use_case). pose proof (H F_team_size).
  pose proof (H F_timeline). simpl in *. congruence.
Qed.

Lemma run_updates_snoc (p : LeadProfile) (calls : list update_call) (c : update_call) :
  run_updates p (calls ++ [c]) = fst (invoke_update (run_updates p calls) c).
Proof. unfold run_updates. rewrite fold_left_app. reflexivity. Qed.

Lemma last_nonempty_snoc (vs : list py_optstr) (v : py_optstr) :
  last_nonempty (vs ++ [v]) =
  if truthy v then v else last_nonempty vs.
Proof.
  induction vs as [|w vs IH]; simpl.
  - destruct (truthy v) eqn:E; [|reflexivity].
    apply truthy_spec in E as (s & -> & _). reflexivity.
  - rewrite IH. destruct (truthy v) eqn:E.
    + apply truthy_spec in E as (s & -> & _). reflexivity.
    + reflexivity.
Qed.

(** C1: over any sequence of update calls on one profile, each of the seven
    fields ends at the last non-empty value supplied for it (at its initial
    value when none was supplied), and a single call whose value for a field
    is absent or empty leaves that field as it was. *)
Theorem update_last_nonempty_wins :
  (∀ (f : field) (p : LeadProfile) (calls : list update_call),
     get_field f (run_updates p calls) =
     match last_nonempty (map (get_arg f) calls) with
     | Some s => Some s
     | None => get_field f p
     end) ∧
  (∀ (f : field) (p : LeadProfile) (c : update_call),
     get_field f (fst (invoke_update p c)) =
     if truthy (get_arg f c) then get_arg f c else get_field f p).
Proof.
  split; [|apply invoke_update_field].
  intros f p calls. induction calls as [|c calls IH] using rev_ind.
  - reflexivity.
  - rewrite run_updates_snoc, map_app, invoke_update_field. simpl.
    rewrite last_nonempty_snoc.
    destruct (truthy (get_arg f c)) eqn:E; [|exact IH].
    apply truthy_spec in E as (s & -> & _). reflexivity.
Qed.

(** C2: a profile is qualified exactly when name, email and use_case each
    hold a non-empty string; the other four fields play no part. *)
Theorem is_qualified_iff_required_fields :
  (∀ p : LeadProfile,
     is_qualified p = true ↔
     (∃ n, name p = Some n ∧ n ≠ EmptyString) ∧
     (∃ e, email p = Some e ∧ e ≠ EmptyString) ∧
     (∃ u, use_case p = Some u ∧ u ≠ EmptyString)) ∧
  (∀ (p : LeadProfile) (c r ts tl : py_optstr),
     is_qualified (mkLeadProfile (name p) c (email p) r (use_case p) ts tl) =
     is_qualified p).
Proof.
  split; [|reflexivity].
  intros p. unfold is_qualified, py_all. simpl.
  rewrite !andb_true_iff, !truthy_spec. tauto.
Qed.

(** C6: applying the same update twice in a row leaves the profile as one
    application does, and answers the same. *)
Theorem update_idempotent (p : LeadProfile) (c : update_call) :
  invoke_update (fst (invoke_update p c)) c = invoke_update p c.
Proof.
  rewrite (surjective_pairing (invoke_update (fst (invoke_update p c)) c)).
  rewrite (surjective_pairing (invoke_update p c)) at 3.
  f_equal.
  apply profile_ext. intros f. rewrite !invoke_update_field.
  destruct (truthy (get_arg f c)); reflexivity.
Qed.

Lemma invoke_update_keeps_nonempty (p : LeadProfile) (c : update_call) :
  (∀ f, unset_or_nonempty (get_field f p)) →
  ∀ f, unset_or_nonempty (get_field f (fst (invoke_update p c))).
Proof.
  intros Hp f. rewrite invoke_update_field.
  destruct (truthy (get_arg f c)) eqn:E; [|apply Hp].
  right. apply truthy_spec. exact E.
Qed.

Lemma run_updates_keeps_nonempty (calls : list update_call) (p : LeadProfile) :
  (∀ f, unset_or_nonempty (get_field f p)) →
  ∀ f, unset_or_nonempty (get_field f (run_updates p calls)).
Proof.
  revert p. induction calls as [|c calls IH]; intros p Hp; [exact Hp|].
  apply (IH (fst (invoke_update p c))).
  apply invoke_update_keeps_nonempty, Hp.
Qed.

(** C10: starting from the empty profile, after any sequence of update
    calls every field is unset or holds a non-empty string. *)
Theorem no_empty_string_stored (calls : list update_call) (f : field) :
  unset_or_nonempty (get_field f (run_updates LeadProfile_new calls)).
Proof.
  apply run_updates_keeps_nonempty. intros g. left. destruct g; reflexivity.
Qed.

(** *** Keyword calls of the update tool *)





(** ** Properties of finalize-and-persist *)

Ltac io_unfold :=
  unfold mbind, mret, IO_bind, IO_ret, try_except, raise,
         os_path_exists, open_r, open_w, json_load, json_dump, py_append.

(** What one finalize call does, on any file system: it raises when the
    store file decodes to something other than an array or cannot be
    written, and otherwise rewrites the file with the records found plus
    the new one. *)
Lemma submit_lead_and_end_run (module_dir : string)
    (profile : LeadProfile) (now : datetime) (fs : filesystem) :
  submit_lead_and_end module_dir profile now fs =
  match store_records module_dir fs with
  | None => (Raises AttributeError, fs)
  | Some items =>
      if bool_decide (db_path module_dir ∈ no_write fs)
      then (Raises PermissionError, fs)
      else (Returns (closing_message profile),
            store_written module_dir
              (JArr (items ++ [lead_entry profile now])) fs)
  end.
Proof.
  unfold submit_lead_and_end, store_records, store_written, db_path.
  set (path := os_path_join module_dir LEADS_FILE).
  io_unfold. simpl.
  destruct (files fs !! path) as [c|] eqn:Hc; simpl.
  - rewrite ?Hc.
    destruct (bool_decide (path ∈ no_read fs)) eqn:Hr; simpl.
    + destruct (bool_decide (path ∈ no_write fs)); [reflexivity|].
      simpl. rewrite insert_insert_eq. reflexivity.
    + destruct c as [raw|v]; simpl.
      * destruct (bool_decide (path ∈ no_write fs)); [reflexivity|].
        simpl. rewrite insert_insert_eq. reflexivity.
      * destruct v; simpl; try reflexivity.
        destruct (bool_decide (path ∈ no_write fs)); [reflexivity|].
        simpl. rewrite insert_insert_eq. reflexivity.
  - destruct (bool_decide (path ∈ no_write fs)); [reflexivity|].
    simpl. rewrite insert_insert_eq. reflexivity.
Qed.

Lemma submit_lead_and_end_ok (module_dir : string)
    (profile : LeadProfile) (now : datetime) (fs : filesystem)
    (items : list json) :
  db_path module_dir ∉ no_write fs →
  store_records module_dir fs = Some items →
  submit_lead_and_end module_dir profile now fs =
    (Returns (closing_message profile),
     store_written module_dir (JArr (items ++ [lead_entry profile now])) fs).
Proof.
  intros Hw Hrec. rewrite submit_lead_and_end_run, Hrec.
  rewrite bool_decide_eq_false_2 by exact Hw. reflexivity.
Qed.

Lemma store_lost_records (module_dir : string) (fs : filesystem) :
  store_lost module_dir fs → store_records module_dir fs = Some [].
Proof.
  unfold store_records, store_lost. intros Hlost.
  destruct (files fs !! db_path module_dir) as [[raw|v]|]; try reflexivity.
  - destruct (bool_decide _); reflexivity.
  - rewrite bool_decide_eq_true_2 by exact Hlost. reflexivity.
Qed.

Lemma store_written_lookup (module_dir : string) (v : json) (fs : filesystem) :
  files (store_written module_dir v fs) !! db_path module_dir = Some (Document v).
Proof. unfold store_written. simpl. apply lookup_insert_eq. Qed.

Lemma store_written_records (module_dir : string) (items : list json)
    (fs : filesystem) :
  db_path module_dir ∉ no_read fs →
  store_records module_dir (store_written module_dir (JArr items) fs) = Some items.
Proof.
  intros Hr. unfold store_records. rewrite store_written_lookup. simpl.
  rewrite bool_decide_eq_false_2 by exact Hr. reflexivity.
Qed.

(** C3: finalize succeeds on every profile, qualified or not: with a store
    file that can be written and holds the records [items] (none when the
    file is absent, unreadable or undecodable), the call returns the closing
    message and leaves the file holding [items] followed by the one new
    record. Qualification is no precondition: whether a call raises never
    depends on the profile. *)
Theorem finalize_appends_one_record (module_dir : string) :
  (∀ (profile : LeadProfile) (now : datetime) (fs : filesystem)
     (items : list json),
     db_path module_dir ∉ no_write fs →
     store_records module_dir fs = Some items →
     submit_lead_and_end module_dir profile now fs =
       (Returns (closing_message profile),
        store_written module_dir
          (JArr (items ++ [lead_entry profile now])) fs)) ∧
  (∀ (p q : LeadProfile) (now : datetime) (fs : filesystem) (e : exn),
     fst (submit_lead_and_end module_dir p now fs) = Raises e →
     fst (submit_lead_and_end module_dir q now fs) = Raises e).
Proof.
  split.
  - apply submit_lead_and_end_ok.
  - intros p q now fs e. rewrite !submit_lead_and_end_run.
    destruct (store_records module_dir fs) as [items|]; [|auto].
    destruct (bool_decide _); [auto | discriminate].
Qed.

Lemma finalize_appends_one_record_witness :
  submit_lead_and_end example_dir LeadProfile_new example_now
    (fs_with_store (Document (JArr [example_record]))) =
  (Returns (closing_message LeadProfile_new),
   store_written example_dir
     (JArr ([example_record] ++ [lead_entry LeadProfile_new example_now]))
     (fs_with_store (Document (JArr [example_record])))).
Proof.
  apply (proj1 (finalize_appends_one_record example_dir)).
  - apply (bool_decide_unpack _). vm_compute. reflexivity.
  - vm_compute. reflexivity.
Defined.

(** C4: when the store file is absent, unreadable or undecodable, finalize
    does not fail and writes the file as the one-element array of the new
    record. *)
Theorem finalize_recovers_lost_store (module_dir : string)
    (profile : LeadProfile) (now : datetime) (fs : filesystem) :
  db_path module_dir ∉ no_write fs →
  store_lost module_dir fs →
  submit_lead_and_end module_dir profile now fs =
    (Returns (closing_message profile),
     store_written module_dir (JArr [lead_entry profile now]) fs) ∧
  files (store_written module_dir (JArr [lead_entry profile now]) fs)
    !! db_path module_dir =
    Some (Document (JArr [lead_entry profile now])).
Proof.
  intros Hw Hlost. split.
  - apply (submit_lead_and_end_ok module_dir profile now fs []); [exact Hw|].
    apply store_lost_records, Hlost.
  - apply store_written_lookup.
Qed.

Lemma finalize_recovers_lost_store_witness :
  submit_lead_and_end example_dir LeadProfile_new example_now
    (fs_with_store (Malformed "{name: oops")) =
    (Returns (closing_message LeadProfile_new),
     store_written example_dir (JArr [lead_entry LeadProfile_new example_now])
       (fs_with_store (Malformed "{name: oops"))) ∧
  files (store_written example_dir (JArr [lead_entry LeadProfile_new example_now])
           (fs_with_store (Malformed "{name: oops")))
    !! db_path example_dir =
    Some (Document (JArr [lead_entry LeadProfile_new example_now])).
Proof.
  apply finalize_recovers_lost_store.
  - apply (bool_decide_unpack _). vm_compute. reflexivity.
  - vm_compute. exact I.
Defined.

(** C9: on a fresh profile, [update(name="Asha", email="asha@x.com")], then
    [update(use_case="chatbot")], then finalize stores a record with those
    three values, null for company, role, team_size and timeline, and the
    timestamp of the call; the returned message mentions the name, the use
    case and the email. *)
Theorem asha_scenario (module_dir : string) (now : datetime)
    (fs : filesystem) (items : list json) :
  db_path module_dir ∉ no_write fs →
  store_records module_dir fs = Some items →
  ∃ msg,
    submit_lead_and_end module_dir asha_profile now fs =
      (Returns msg,
       store_written module_dir
         (JArr (items ++
                [JObj [("name", JStr "Asha"); ("company", JNull);
                       ("email", JStr "asha@x.com"); ("role", JNull);
                       ("use_case", JStr "chatbot"); ("team_size", JNull);
                       ("timeline", JNull);
                       ("timestamp", JStr (isoformat now))]])) fs) ∧
    contains "Asha" msg = true ∧
    contains "chatbot" msg = true ∧
    contains "asha@x.com" msg = true.
Proof.
  intros Hw Hrec. exists (closing_message asha_profile). split.
  - apply (submit_lead_and_end_ok module_dir asha_profile now fs items Hw Hrec).
  - vm_compute. auto.
Qed.

Lemma asha_scenario_witness :
  ∃ msg,
    submit_lead_and_end example_dir asha_profile example_now fs_empty =
      (Returns msg,
       store_written example_dir
         (JArr ([] ++
                [JObj [("name", JStr "Asha"); ("company", JNull);
                       ("email", JStr "asha@x.com"); ("role", JNull);
                       ("use_case", JStr "chatbot"); ("team_size", JNull);
                       ("timeline", JNull);
                       ("timestamp", JStr (isoformat example_now))]])) fs_empty) ∧
    contains "Asha" msg = true ∧
    contains "chatbot" msg = true ∧
    contains "asha@x.com" msg = true.
Proof.
  apply asha_scenario.
  - apply (bool_decide_unpack _). vm_compute. reflexivity.
  - vm_compute. reflexivity.
Defined.

(** ** Properties of the knowledge-base loader *)

Lemma load_knowledge_base_run (module_dir : string)
    (encode_basestring_ascii : string → string) (fs : filesystem) :
  load_knowledge_base module_dir encode_basestring_ascii fs =
  (Returns (fst (kb_loader_spec module_dir encode_basestring_ascii fs)),
   snd (kb_loader_spec module_dir encode_basestring_ascii fs)).
Proof.
  unfold load_knowledge_base, kb_loader_spec, faq_path.
  set (path := os_path_join module_dir FAQ_FILE).
  io_unfold. simpl.
  destruct (files fs !! path) as [c|] eqn:Hc; simpl.
  - rewrite ?Hc.
    destruct (bool_decide (path ∈ no_read fs)); simpl; [reflexivity|].
    destruct c; reflexivity.
  - destruct (bool_decide (path ∈ no_write fs)); simpl; [reflexivity|].
    rewrite insert_insert_eq, lookup_insert_eq.
    destruct (bool_decide (path ∈ no_read fs)); reflexivity.
Qed.

(** C8: the loader never raises. When the file is absent it first writes
    the default set, then it returns what the file holds, serialized in
    order; whenever a read, a write or the decoding fails it returns the
    empty blob. *)
Theorem load_knowledge_base_never_fails (module_dir : string)
    (encode_basestring_ascii : string → string) :
  (∀ fs : filesystem,
     load_knowledge_base module_dir encode_basestring_ascii fs =
     (Returns (fst (kb_loader_spec module_dir encode_basestring_ascii fs)),
      snd (kb_loader_spec module_dir encode_basestring_ascii fs))) ∧
  (∀ items : list json,
     json_dumps encode_basestring_ascii (JArr items) =
     "[" ++ join ", " (map (json_dumps encode_basestring_ascii) items) ++ "]").
Proof.
  split; [apply load_knowledge_base_run | reflexivity].
Qed.

(** ** Timestamps keep the order of the clock *)

Lemma string_length_app (a b : string) :
  String.length (a ++ b) = (String.length a + String.length b)%nat.
Proof. induction a as [|c a IH]; simpl; [reflexivity | now rewrite IH]. Qed.

Lemma ascii_compare_refl (c : ascii) : Ascii.compare c c = Eq.
Proof. unfold Ascii.compare. apply N.compare_refl. Qed.

Lemma compare_app (a b s t : string) :
  String.length a = String.length b →
  String.compare (a ++ s) (b ++ t) =
  lexc (String.compare a b) (String.compare s t).
Proof.
  revert b. induction a as [|c a IH]; intros [|d b] Hlen; simpl in *;
    try discriminate.
  - reflexivity.
  - destruct (Ascii.compare c d); try reflexivity.
    apply IH. congruence.
Qed.

Lemma compare_sep (c : ascii) (s t : string) :
  String.compare (String c EmptyString ++ s) (String c EmptyString ++ t) =
  String.compare s t.
Proof. simpl. now rewrite ascii_compare_refl. Qed.

Lemma zfill_length (w : nat) (n : Z) : String.length (zfill w n) = w.
Proof.
  revert n. induction w as [|w IH]; intros n; simpl; [reflexivity|].
  rewrite string_length_app, IH. simpl. lia.
Qed.

Lemma digit_char_compare (a b : Z) :
  (0 ≤ a < 10)%Z → (0 ≤ b < 10)%Z →
  Ascii.compare (digit_char a) (digit_char b) = (a ?= b)%Z.
Proof.
  intros Ha Hb. unfold Ascii.compare, digit_char.
  rewrite !N_ascii_embedding by lia.
  rewrite Z2N.inj_compare by lia.
  apply Z.add_compare_mono_l.
Qed.

Lemma zfill_compare (w : nat) (x y : Z) :
  (0 ≤ x < 10 ^ Z.of_nat w)%Z → (0 ≤ y < 10 ^ Z.of_nat w)%Z →
  String.compare (zfill w x) (zfill w y) = (x ?= y)%Z.
Proof.
  revert x y. induction w as [|w IH]; intros x y Hx Hy.
  - simpl in *. assert (x = 0 ∧ y = 0)%Z as [-> ->] by lia. reflexivity.
  - rewrite Nat2Z.inj_succ, Z.pow_succ_r in Hx, Hy by lia.
    simpl zfill. rewrite compare_app by now rewrite !zfill_length.
    rewrite IH by (split; [apply Z.div_pos; lia | apply Z.div_lt_upper_bound; lia]).
    simpl String.compare.
    rewrite digit_char_compare by (apply Z.mod_pos_bound; lia).
    pose proof (Z.div_mod x 10 ltac:(lia)) as Ex.
    pose proof (Z.div_mod y 10 ltac:(lia)) as Ey.
    pose proof (Z.mod_pos_bound x 10 ltac:(lia)) as Bx.
    pose proof (Z.mod_pos_bound y 10 ltac:(lia)) as By.
    destruct (Z.compare_spec (x / 10) (y / 10)) as [Hq|Hq|Hq]; simpl.
    + destruct (Z.compare_spec (x mod 10) (y mod 10)) as [Hr|Hr|Hr];
        symmetry; [apply Z.compare_eq_iff | apply Z.compare_lt_iff
                  | apply Z.compare_gt_iff]; lia.
    + symmetry. apply Z.compare_lt_iff. lia.
    + symmetry. apply Z.compare_gt_iff. lia.
Qed.

Lemma iso_fraction_compare (a b : Z) :
  (0 ≤ a < 1000000)%Z → (0 ≤ b < 1000000)%Z →
  String.compare (iso_fraction a) (iso_fraction b) = (a ?= b)%Z.
Proof.
  intros Ha Hb. unfold iso_fraction.
  destruct (Z.eqb_spec a 0) as [->|Na], (Z.eqb_spec b 0) as [->|Nb].
  - reflexivity.
  - symmetry. apply Z.compare_lt_iff. lia.
  - symmetry. apply Z.compare_gt_iff. lia.
  - rewrite compare_sep. apply (zfill_compare 6); assumption.
Qed.

Lemma lexc_eq_r (c : comparison) : lexc c Eq = c.
Proof. destruct c; reflexivity. Qed.

(** Rendered timestamps compare as the clock readings do. *)
Lemma isoformat_compare (d1 d2 : datetime) :
  valid_datetime d1 → valid_datetime d2 →
  String.compare (isoformat d1) (isoformat d2) =
  lex_compare (datetime_key d1) (datetime_key d2).
Proof.
  intros (Hy1 & Hm1 & Hd1 & Hh1 & Hi1 & Hs1 & Hu1)
         (Hy2 & Hm2 & Hd2 & Hh2 & Hi2 & Hs2 & Hu2).
  unfold isoformat. simpl lex_compare.
  rewrite compare_app by now rewrite !zfill_length.
  rewrite (zfill_compare 4) by (simpl; lia). rewrite compare_sep.
  rewrite compare_app by now rewrite !zfill_length.
  rewrite (zfill_compare 2) by (simpl; lia). rewrite compare_sep.
  rewrite compare_app by now rewrite !zfill_length.
  rewrite (zfill_compare 2) by (simpl; lia). rewrite compare_sep.
  rewrite compare_app by now rewrite !zfill_length.
  rewrite (zfill_compare 2) by (simpl; lia). rewrite compare_sep.
  rewrite compare_app by now rewrite !zfill_length.
  rewrite (zfill_compare 2) by (simpl; lia). rewrite compare_sep.
  rewrite compare_app by now rewrite !zfill_length.
  rewrite (zfill_compare 2) by (simpl; lia).
  rewrite iso_fraction_compare by assumption.
  now rewrite lexc_eq_r.
Qed.




(** ** Sequences of finalize calls *)

Lemma entry_timestamp_lead_entry (profile : LeadProfile) (now : datetime) :
  entry_timestamp (lead_entry profile now) = Some (isoformat now).
Proof. reflexivity. Qed.


(** Running the calls one after the other from a store with [items]: none
    raises, and the store ends with [items] followed by one record per
    call, in call order. *)
Lemma submit_each_run (module_dir : string)
    (calls : list (LeadProfile * datetime)) :
  ∀ (fs : filesystem) (items : list json),
    db_path module_dir ∉ no_read fs →
    db_path module_dir ∉ no_write fs →
    store_records module_dir fs = Some items →
    ∃ fs',
      submit_each module_dir calls fs =
        (Returns (map (fun c => closing_message (fst c)) calls), fs') ∧
      store_records module_dir fs' = Some (items ++ map entry_of_call calls)%list ∧
      no_read fs' = no_read fs ∧ no_write fs' = no_write fs.
Proof.
  induction calls as [|[p now] calls IH]; intros fs items Hr Hw Hrec.
  - exists fs. simpl. rewrite app_nil_r. auto.
  - set (fs1 := store_written module_dir (JArr (items ++ [lead_entry p now])) fs).
    destruct (IH fs1 (items ++ [lead_entry p now])%list) as (fs' & Hrun & Hst & Hnr & Hnw).
    + exact Hr.
    + exact Hw.
    + apply store_written_records, Hr.
    + exists fs'. split; [|split; [|split]].
      * simpl. unfold mbind, IO_bind.
        rewrite (submit_lead_and_end_ok module_dir p now fs items Hw Hrec).
        fold fs1. unfold mbind, IO_bind in Hrun. rewrite Hrun. reflexivity.
      * rewrite Hst, <- app_assoc. reflexivity.
      * rewrite Hnr. reflexivity.
      * rewrite Hnw. reflexivity.
Qed.



(** The clock readings of the sample calls are valid and in order, and the
    two stored timestamps differ only by the fraction. *)
Example example_calls_clock :
  Forall valid_datetime (map snd example_calls) ∧
  Sorted datetime_le (map snd example_calls) ∧
  map isoformat (map snd example_calls) =
    ["2025-11-27T18:04:59"; "2025-11-27T18:04:59.120034"].
Proof.
  split; [|split].
  - repeat constructor; simpl; lia.
  - repeat constructor.
  - reflexivity.
Qed.

(** A store file that decodes to something other than an array is outside
    the recovery: the call raises at [append] and the file stays as it
    was. *)
Example finalize_on_object_store :
  submit_lead_and_end example_dir asha_profile example_now
    (fs_with_store (Document (JObj []))) =
  (Raises AttributeError, fs_with_store (Document (JObj []))).
Proof. rewrite submit_lead_and_end_run. vm_compute. reflexivity. Qed.

(** A store file the process may not write makes the call raise. *)
Example finalize_on_readonly_store :
  fst (submit_lead_and_end example_dir asha_profile example_now
         (mkFs ∅ ∅ {[ db_path example_dir ]})) =
  Raises PermissionError.
Proof. rewrite submit_lead_and_end_run. vm_compute. reflexivity. Qed.

(** The loader on a file system with no files seeds the defaults and
    returns them. *)
Example load_knowledge_base_seeds (enc : string → string) :
  load_knowledge_base example_dir enc fs_empty =
  (Returns (json_dumps enc DEFAULT_FAQ),
   mkFs {[ faq_path example_dir := Document DEFAULT_FAQ ]} ∅ ∅).
Proof. rewrite load_knowledge_base_run. vm_compute. reflexivity. Qed.

(** * Further properties *)

(** ** The update tool over sequences of calls *)

Lemma run_updates_field (f : field) (p : LeadProfile) (calls : list update_call) :
  get_field f (run_updates p calls) =
  match last_nonempty (map (get_arg f) calls) with
  | Some s => Some s
  | None => get_field f p
  end.
Proof.
  induction calls as [|c calls IH] using rev_ind; [reflexivity|].
  rewrite run_updates_snoc, map_app, invoke_update_field. simpl.
  rewrite last_nonempty_snoc.
  destruct (truthy (get_arg f c)) eqn:E; [|exact IH].
  apply truthy_spec in E as (s & -> & _). reflexivity.
Qed.

Lemma last_nonempty_supplied (vs : list py_optstr) :
  match last_nonempty vs with
  | Some s => truthy (Some s) = true ∧ existsb truthy vs = true
  | None => existsb truthy vs = false
  end.
Proof.
  induction vs as [|v vs IH]; simpl; [reflexivity|].
  destruct (last_nonempty vs) as [s|].
  - destruct IH as [Hs Hex]. rewrite Hex, orb_true_r. auto.
  - rewrite IH, orb_false_r. destruct (truthy v) eqn:E; [|reflexivity].
    destruct v as [s|]; [auto | discriminate].
Qed.

Lemma existsb_map_arg (f : field) (calls : list update_call) :
  existsb truthy (map (get_arg f) calls) = supplied f calls.
Proof.
  unfold supplied. induction calls as [|c calls IH]; simpl; [reflexivity|].
  now rewrite IH.
Qed.

Lemma truthy_run_updates (f : field) (p : LeadProfile) (calls : list update_call) :
  truthy (get_field f (run_updates p calls)) =
  truthy (get_field f p) || supplied f calls.
Proof.
  rewrite run_updates_field, <- existsb_map_arg.
  pose proof (last_nonempty_supplied (map (get_arg f) calls)) as H.
  destruct (last_nonempty (map (get_arg f) calls)) as [s|].
  - destruct H as [Hs Hex]. rewrite Hs, Hex, orb_true_r. reflexivity.
  - rewrite H, orb_false_r. reflexivity.
Qed.

Lemma get_arg_merge_calls (f : field) (calls : list update_call) :
  get_arg f (merge_calls calls) = last_nonempty (map (get_arg f) calls).
Proof. destruct f; reflexivity. Qed.

Lemma is_qualified_fields (p : LeadProfile) :
  is_qualified p = forallb (fun f => truthy (get_field f p)) required_fields.
Proof. reflexivity. Qed.

(** X1: no sequence of update calls clears a field: a field that holds a
    value before the calls holds one after them. *)
Theorem update_never_clears (f : field) (p : LeadProfile)
    (calls : list update_call) :
  is_Some (get_field f p) → is_Some (get_field f (run_updates p calls)).
Proof.
  intros Hset. rewrite run_updates_field.
  destruct (last_nonempty _); [eauto | exact Hset].
Qed.

Lemma update_never_clears_witness :
  is_Some (get_field F_name
             (run_updates asha_profile [example_call_email; example_call_name])).
Proof.
  apply update_never_clears. vm_compute. eauto.
Defined.

(** X2: a qualified profile stays qualified through any sequence of update
    calls. *)
Theorem qualified_stays_qualified (p : LeadProfile) (calls : list update_call) :
  is_qualified p = true → is_qualified (run_updates p calls) = true.
Proof.
  rewrite !is_qualified_fields. unfold required_fields. cbn [forallb].
  rewrite !truthy_run_updates, !andb_true_iff.
  intros (-> & -> & -> & _). auto.
Qed.

Lemma qualified_stays_qualified_witness :
  is_qualified (run_updates asha_profile [example_call_email; example_call_name])
  = true.
Proof. apply qualified_stays_qualified. vm_compute. reflexivity. Defined.

(** X3: a sequence of update calls has the effect of the single call that
    carries, for each parameter, the last non-empty value of the sequence. *)
Theorem run_updates_as_one_call (p : LeadProfile) (calls : list update_call) :
  run_updates p calls = fst (invoke_update p (merge_calls calls)).
Proof.
  apply profile_ext. intros f.
  rewrite run_updates_field, invoke_update_field, get_arg_merge_calls.
  pose proof (last_nonempty_supplied (map (get_arg f) calls)) as H.
  destruct (last_nonempty (map (get_arg f) calls)) as [s|].
  - destruct H as [-> _]. reflexivity.
  - reflexivity.
Qed.



(** X5: after a sequence of update calls the profile is qualified exactly
    when each of name, email and use_case was non-empty at the start or was
    given a non-empty value by some call. *)
Theorem qualified_after_updates (p : LeadProfile) (calls : list update_call) :
  is_qualified (run_updates p calls) =
  forallb (fun f => truthy (get_field f p) || supplied f calls) required_fields.
Proof.
  rewrite is_qualified_fields. unfold required_fields. cbn [forallb].
  rewrite !truthy_run_updates. reflexivity.
Qed.

(** X6: an empty-string argument acts exactly as an absent one: replacing
    every empty argument of a call by [None] changes neither the resulting
    profile nor the answer. *)
Theorem empty_argument_as_absent (p : LeadProfile) (c : update_call) :
  invoke_update p (drop_empty_args c) = invoke_update p c.
Proof.
  destruct c as [a1 a2 a3 a4 a5 a6 a7].
  unfold invoke_update, update_lead_profile, drop_empty_args, absent_if_empty.
  simpl.
  destruct (truthy a1) eqn:E1, (truthy a2) eqn:E2, (truthy a3) eqn:E3,
           (truthy a4) eqn:E4, (truthy a5) eqn:E5, (truthy a6) eqn:E6,
           (truthy a7) eqn:E7; simpl;
    rewrite ?E1, ?E2, ?E3, ?E4, ?E5, ?E6, ?E7; reflexivity.
Qed.

(** ** Finalize: errors, frame and the stored record *)





(** X9: finalize touches nothing but the store file: every other path holds
    what it held, and the permissions are as before, whether the call
    returns or raises. *)
Theorem finalize_frame (module_dir : string)
    (profile : LeadProfile) (now : datetime) (fs : filesystem) :
  no_read (snd (submit_lead_and_end module_dir profile now fs)) = no_read fs ∧
  no_write (snd (submit_lead_and_end module_dir profile now fs)) = no_write fs ∧
  ∀ path : string,
    path ≠ db_path module_dir →
    files (snd (submit_lead_and_end module_dir profile now fs)) !! path =
    files fs !! path.
Proof.
  rewrite submit_lead_and_end_run.
  destruct (store_records module_dir fs); [|auto].
  destruct (bool_decide _); [auto|].
  simpl. split; [reflexivity|]. split; [reflexivity|].
  intros path Hne. apply lookup_insert_ne. congruence.
Qed.

(** X10: the store is append-only across calls: from a readable, writable
    store holding [items], any number of finalize calls all return and leave
    [items], untouched and in order, followed by one record per call. *)
Theorem finalize_calls_append_only (module_dir : string)
    (calls : list (LeadProfile * datetime)) (fs : filesystem)
    (items : list json) :
  db_path module_dir ∉ no_read fs →
  db_path module_dir ∉ no_write fs →
  store_records module_dir fs = Some items →
  ∃ msgs fs',
    submit_each module_dir calls fs = (Returns msgs, fs') ∧
    store_records module_dir fs' = Some (items ++ map entry_of_call calls)%list.
Proof.
  intros Hr Hw Hrec.
  destruct (submit_each_run module_dir calls fs items Hr Hw Hrec)
    as (fs' & Hrun & Hst & _).
  eauto.
Qed.

Lemma finalize_calls_append_only_witness :
  ∃ msgs fs',
    submit_each example_dir example_calls
      (fs_with_store (Document (JArr [example_record]))) = (Returns msgs, fs') ∧
    store_records example_dir fs' =
      Some ([example_record] ++ map entry_of_call example_calls)%list.
Proof.
  apply finalize_calls_append_only.
  - apply (bool_decide_unpack _). vm_compute. reflexivity.
  - apply (bool_decide_unpack _). vm_compute. reflexivity.
  - vm_compute. reflexivity.
Defined.

Lemma prefix_app (n b : string) : String.prefix n (n ++ b) = true.
Proof.
  induction n as [|c n IH]; simpl; [destruct b; reflexivity|].
  destruct (ascii_dec c c); [exact IH | contradiction].
Qed.

Lemma string_app_assoc (a b c : string) : a ++ b ++ c = (a ++ b) ++ c.
Proof.
  induction a as [|x a IH]; [reflexivity|].
  change (String x (a ++ b ++ c) = String x ((a ++ b) ++ c)). now f_equal.
Qed.

Lemma contains_prefix (n h : string) :
  String.prefix n h = true → contains n h = true.
Proof. intros H. destruct h; cbn [contains]; rewrite H; reflexivity. Qed.

Lemma contains_app (n a b : string) : contains n (a ++ n ++ b) = true.
Proof.
  induction a as [|c a IH].
  - change (EmptyString ++ n ++ b) with (n ++ b).
    apply contains_prefix, prefix_app.
  - change (String c a ++ n ++ b) with (String c (a ++ n ++ b)).
    cbn [contains]. rewrite IH. apply orb_true_r.
Qed.

(** X11: the closing message spells out the profile's name, use case and
    email as an f-string renders them: the value when the field is set, the
    word None when it is not. *)
Theorem closing_message_mentions_fields (p : LeadProfile) :
  contains (py_str (name p)) (closing_message p) = true ∧
  contains (py_str (use_case p)) (closing_message p) = true ∧
  contains (py_str (email p)) (closing_message p) = true.
Proof.
  unfold closing_message. repeat split.
  - apply contains_app.
  - rewrite (string_app_assoc "Thanks "), string_app_assoc.
    apply contains_app.
  - rewrite (string_app_assoc "Thanks "), string_app_assoc.
    rewrite (string_app_assoc _ (py_str (use_case p))), string_app_assoc.
    apply contains_app.
Qed.

(** ** The stored record *)

(** X12: the record finalize builds has the seven profile keys in
    declaration order followed by timestamp; each profile key reads back as
    the profile's value (null when unset), and timestamp as the rendered
    clock reading. *)
Theorem lead_entry_members (p : LeadProfile) (now : datetime) :
  entry_keys (lead_entry p now) = (PARAMS ++ ["timestamp"])%list ∧
  (∀ f, entry_member (field_key f) (lead_entry p now) =
        Some (json_of_optstr (get_field f p))) ∧
  entry_member "timestamp" (lead_entry p now) = Some (JStr (isoformat now)).
Proof.
  split; [reflexivity|]. split; [|reflexivity].
  intros f. destruct f; reflexivity.
Qed.

Lemma lead_entry_member_field (f : field) (p : LeadProfile) (now : datetime) :
  entry_member (field_key f) (lead_entry p now) =
  Some (json_of_optstr (get_field f p)).
Proof. destruct f; reflexivity. Qed.

Lemma lead_entry_member_timestamp (p : LeadProfile) (now : datetime) :
  entry_member "timestamp" (lead_entry p now) = Some (JStr (isoformat now)).
Proof. reflexivity. Qed.

Lemma json_of_optstr_inj (v w : py_optstr) :
  json_of_optstr v = json_of_optstr w → v = w.
Proof. destruct v, w; simpl; congruence. Qed.

Lemma string_compare_refl (s : string) : String.compare s s = Eq.
Proof.
  induction s as [|c s IH]; simpl; [reflexivity|].
  now rewrite ascii_compare_refl.
Qed.

Lemma lex_compare_eq (a b : list Z) : lex_compare a b = Eq → a = b.
Proof.
  revert b. induction a as [|x a IH]; intros [|y b]; simpl; try discriminate.
  - reflexivity.
  - destruct (Z.compare_spec x y) as [->|_|_]; simpl; try discriminate.
    intros H. f_equal. apply IH, H.
Qed.

Lemma isoformat_inj (d1 d2 : datetime) :
  valid_datetime d1 → valid_datetime d2 →
  isoformat d1 = isoformat d2 → d1 = d2.
Proof.
  intros V1 V2 Heq.
  pose proof (isoformat_compare d1 d2 V1 V2) as Hc.
  rewrite Heq, string_compare_refl in Hc. symmetry in Hc.
  apply lex_compare_eq in Hc. destruct d1, d2.
  unfold datetime_key in Hc. simpl in Hc. congruence.
Qed.

(** X13: the stored record loses nothing: two finalize calls whose clock
    readings are valid datetimes build the same record only from the same
    profile at the same clock reading. *)
Theorem lead_entry_injective (p q : LeadProfile) (now now' : datetime) :
  valid_datetime now → valid_datetime now' →
  lead_entry p now = lead_entry q now' →
  p = q ∧ now = now'.
Proof.
  intros V V' H. split.
  - apply profile_ext. intros f. apply json_of_optstr_inj.
    pose proof (f_equal (entry_member (field_key f)) H) as Hf.
    rewrite !lead_entry_member_field in Hf. congruence.
  - apply isoformat_inj; [assumption..|].
    pose proof (f_equal (entry_member "timestamp") H) as Ht.
    rewrite !lead_entry_member_timestamp in Ht. congruence.
Qed.

Lemma lead_entry_injective_witness :
  asha_profile = asha_profile ∧ example_now = example_now.
Proof.
  apply lead_entry_injective.
  - vm_compute. repeat split; discriminate.
  - vm_compute. repeat split; discriminate.
  - reflexivity.
Defined.

(** X14: a session never persists an empty string: starting from the fresh
    profile a session is given, after any update calls the record finalize
    builds holds, at each of the seven keys, null or a non-empty string. *)
Theorem session_record_has_no_empty_string
    (calls : list update_call) (now : datetime) (f : field) :
  entry_member (field_key f)
    (lead_entry (run_updates LeadProfile_new calls) now) = Some JNull ∨
  ∃ s, entry_member (field_key f)
         (lead_entry (run_updates LeadProfile_new calls) now) = Some (JStr s) ∧
       s ≠ EmptyString.
Proof.
  rewrite lead_entry_member_field.
  destruct (run_updates_keeps_nonempty calls LeadProfile_new) with (f := f)
    as [-> | (s & -> & Hs)].
  - intros g. left. destruct g; reflexivity.
  - left. reflexivity.
  - right. exists s. auto.
Qed.

(** ** The knowledge-base loader: what it leaves alone and when it is empty *)

(** X15: loading twice is loading once: a second call right after the first
    returns the same blob and changes nothing more. *)
Theorem load_knowledge_base_twice (module_dir : string)
    (encode_basestring_ascii : string → string) (fs : filesystem) :
  load_knowledge_base module_dir encode_basestring_ascii
    (snd (load_knowledge_base module_dir encode_basestring_ascii fs)) =
  load_knowledge_base module_dir encode_basestring_ascii fs.
Proof.
  rewrite !load_knowledge_base_run. unfold kb_loader_spec.
  destruct (files fs !! faq_path module_dir) as [c|] eqn:Hc.
  - destruct (bool_decide (faq_path module_dir ∈ no_read fs)) eqn:Hr; simpl.
    + rewrite Hc, Hr. reflexivity.
    + destruct c; simpl; rewrite Hc, Hr; reflexivity.
  - destruct (bool_decide (faq_path module_dir ∈ no_write fs)) eqn:Hw; simpl.
    + rewrite Hc, Hw. reflexivity.
    + destruct (bool_decide (faq_path module_dir ∈ no_read fs)) eqn:Hr; simpl;
        rewrite lookup_insert_eq, Hr; reflexivity.
Qed.

(** X16: the loader never rewrites a file that is there: when the
    knowledge-base file exists, even unreadable or undecodable, the call
    leaves every file as it was (a damaged file is not re-seeded). *)
Theorem load_knowledge_base_keeps_existing (module_dir : string)
    (encode_basestring_ascii : string → string) (fs : filesystem) :
  is_Some (files fs !! faq_path module_dir) →
  snd (load_knowledge_base module_dir encode_basestring_ascii fs) = fs.
Proof.
  intros [c Hc]. rewrite load_knowledge_base_run. unfold kb_loader_spec.
  rewrite Hc. destruct (bool_decide _); [reflexivity|].
  destruct c; reflexivity.
Qed.

Lemma load_knowledge_base_keeps_existing_witness :
  snd (load_knowledge_base example_dir quote_plain
         (fs_with_faq (Malformed "[{question:"))) =
  fs_with_faq (Malformed "[{question:").
Proof.
  apply load_knowledge_base_keeps_existing. vm_compute. eauto.
Defined.

(** X17: the loader touches nothing but the knowledge-base file: every
    other path, the lead store among them, holds what it held, and the
    permissions are as before. *)
Theorem load_knowledge_base_frame (module_dir : string)
    (encode_basestring_ascii : string → string) (fs : filesystem) :
  no_read (snd (load_knowledge_base module_dir encode_basestring_ascii fs))
    = no_read fs ∧
  no_write (snd (load_knowledge_base module_dir encode_basestring_ascii fs))
    = no_write fs ∧
  ∀ path : string,
    path ≠ faq_path module_dir →
    files (snd (load_knowledge_base module_dir encode_basestring_ascii fs))
      !! path = files fs !! path.
Proof.
  rewrite load_knowledge_base_run. unfold kb_loader_spec.
  destruct (files fs !! faq_path module_dir) as [c|].
  - destruct (bool_decide _); [auto|]. destruct c; auto.
  - destruct (bool_decide (faq_path module_dir ∈ no_write fs)); [auto|].
    assert (∀ path, path ≠ faq_path module_dir →
              <[faq_path module_dir := Document DEFAULT_FAQ]> (files fs) !! path
              = files fs !! path) as Hother
      by (intros path Hne; apply lookup_insert_ne; congruence).
    destruct (bool_decide (faq_path module_dir ∈ no_read fs)); simpl; auto.
Qed.

Lemma pretty_N_go_nonempty (x : N) (s : string) :
  s ≠ EmptyString → pretty_N_go x s ≠ EmptyString.
Proof.
  revert s. induction (N.lt_wf_0 x) as [x _ IH]. intros s Hs.
  destruct (decide (x = 0)%N) as [->|Hx]; [now rewrite pretty_N_go_0|].
  rewrite pretty_N_go_step by lia.
  apply IH; [apply N.div_lt; lia | discriminate].
Qed.

Lemma pretty_Z_nonempty (n : Z) : pretty n ≠ EmptyString.
Proof.
  destruct n as [|x|x]; unfold pretty, pretty_Z; [discriminate| |discriminate].
  unfold pretty, pretty_positive, pretty, pretty_N.
  destruct (decide (N.pos x = 0)%N); [discriminate|].
  rewrite pretty_N_go_step by lia. apply pretty_N_go_nonempty. discriminate.
Qed.

Lemma json_dumps_nonempty (enc : string → string) (v : json) :
  (∀ s, enc s ≠ EmptyString) → json_dumps enc v ≠ EmptyString.
Proof.
  intros Henc. destruct v as [|[|]|n|s|items|members]; simpl;
    try discriminate.
  - apply pretty_Z_nonempty.
  - apply Henc.
Qed.

(** X18: with an escaper that never yields the empty text (json's always
    writes the quotes), the empty blob means failure and nothing else: the
    loader returns it exactly when, after the call, the knowledge-base file
    is not a readable, decodable file. *)
Theorem load_knowledge_base_empty_iff_failed (module_dir : string)
    (encode_basestring_ascii : string → string) (fs : filesystem) :
  (∀ s, encode_basestring_ascii s ≠ EmptyString) →
  (fst (load_knowledge_base module_dir encode_basestring_ascii fs)
     = Returns EmptyString ↔
   ¬ faq_readable_document module_dir
       (snd (load_knowledge_base module_dir encode_basestring_ascii fs))).
Proof.
  intros Henc. rewrite load_knowledge_base_run.
  unfold kb_loader_spec, faq_readable_document.
  assert (∀ v, Returns (json_dumps encode_basestring_ascii v)
               ≠ Returns EmptyString) as Hne.
  { intros v [= H]. now apply (json_dumps_nonempty _ v Henc). }
  destruct (files fs !! faq_path module_dir) as [c|] eqn:Hc.
  - destruct (bool_decide (faq_path module_dir ∈ no_read fs)) eqn:Hr; simpl.
    + apply bool_decide_eq_true in Hr. split; [|reflexivity].
      intros _ (v & _ & Hn). contradiction.
    + apply bool_decide_eq_false in Hr. destruct c as [raw|v]; simpl.
      * split; [|reflexivity]. intros _ (v & Hv & _). congruence.
      * split; [intros H; now destruct (Hne v)|].
        intros Hn. destruct Hn. eauto.
  - destruct (bool_decide (faq_path module_dir ∈ no_write fs)); simpl.
    + split; [|reflexivity]. intros _ (v & Hv & _). congruence.
    + destruct (bool_decide (faq_path module_dir ∈ no_read fs)) eqn:Hr; simpl.
      * apply bool_decide_eq_true in Hr. split; [|reflexivity].
        intros _ (v & _ & Hn). contradiction.
      * apply bool_decide_eq_false in Hr.
        split; [intros H; now destruct (Hne DEFAULT_FAQ)|].
        intros Hn. destruct Hn. exists DEFAULT_FAQ.
        split; [apply lookup_insert_eq | exact Hr].
Qed.

Lemma load_knowledge_base_empty_iff_failed_witness :
  fst (load_knowledge_base example_dir quote_plain fs_empty)
    = Returns EmptyString ↔
  ¬ faq_readable_document example_dir
      (snd (load_knowledge_base example_dir quote_plain fs_empty)).
Proof.
  apply load_knowledge_base_empty_iff_failed.
  intros s. unfold quote_plain. discriminate.
Defined.

(** ** The agent's instructions *)

Lemma contains_app_r (n a t : string) :
  contains n t = true → contains n (a ++ t) = true.
Proof.
  intros H. induction a as [|c a IH]; [exact H|].
  change (String c a ++ t) with (String c (a ++ t)).
  cbn [contains]. rewrite IH. apply orb_true_r.
Qed.

(** X19: whatever text the loader produced is carried verbatim in the
    agent's instructions, and the instructions name every function
    registered as a tool. *)
Theorem instructions_embed_faq_and_tools (STORE_FAQ_TEXT : string) :
  contains STORE_FAQ_TEXT (SDRAgent_instructions STORE_FAQ_TEXT) = true ∧
  Forall (fun tool => contains tool (SDRAgent_instructions STORE_FAQ_TEXT) = true)
         SDRAgent_tools.
Proof.
  unfold SDRAgent_instructions. split; [apply contains_app|].
  repeat constructor; do 2 apply contains_app_r; vm_compute; reflexivity.
Qed.

(** ** Qualification and the stored record *)

(** X20: qualification can be read off the stored record: a profile is
    qualified exactly when the record finalize builds from it holds a
    non-empty string at each of name, email and use_case. *)
Theorem qualified_iff_record_complete (p : LeadProfile) (now : datetime) :
  is_qualified p = true ↔
  ∀ f, f ∈ required_fields →
       ∃ s, entry_member (field_key f) (lead_entry p now) = Some (JStr s) ∧
            s ≠ EmptyString.
Proof.
  rewrite is_qualified_fields, forallb_forall. split.
  - intros H f Hf. rewrite lead_entry_member_field.
    apply list_elem_of_In, H, truthy_spec in Hf as (s & -> & Hs). eauto.
  - intros H f Hf. apply list_elem_of_In, H in Hf as (s & Hs & Hne).
    rewrite lead_entry_member_field in Hs. apply truthy_spec.
    destruct (get_field f p) as [t|]; [|discriminate].
    injection Hs as ->. eauto.
Qed.
